(** * resources/js/Pages/error-handling.js

    A model of the "Error handling" documentation page: the module-level
    [meta] object, the [Page] render function and [Page.layout].

    JavaScript strings are modelled as byte strings (the source file is
    ASCII; the character that the entity [&hellip;] denotes is written in
    UTF-8).  Object and array literals are allocated in a heap, so
    that object identity, aliasing and mutation can be stated; React elements
    are immutable values. *)

From Stdlib Require Import Ascii.
From stdpp Require Import base list strings relations.

Set Warnings "-register-all".

(** ** Characters and string helpers *)

Definition LF : ascii := ascii_of_nat 10.
Definition CR : ascii := ascii_of_nat 13.
Definition TAB : ascii := ascii_of_nat 9.
Definition NUL : ascii := ascii_of_nat 0.
Definition SPACE : ascii := ascii_of_nat 32.
Definition BACKSLASH : ascii := ascii_of_nat 92.

(** The character class [[\t ]] of the regular expressions below. *)
Definition is_blank (c : ascii) : bool :=
  Ascii.eqb c SPACE || Ascii.eqb c TAB.

Definition is_empty (s : string) : bool :=
  match s with
  | EmptyString => true
  | String _ _ => false
  end.

Fixpoint only_blanks (s : string) : bool :=
  match s with
  | EmptyString => true
  | String c s' => is_blank c && only_blanks s'
  end.

Fixpoint count_blanks (s : string) : nat :=
  match s with
  | EmptyString => 0
  | String c s' => if is_blank c then S (count_blanks s') else 0
  end.

(** [has_blanks n s]: the first [n] characters of [s] exist and are blanks. *)
Fixpoint has_blanks (n : nat) (s : string) : bool :=
  match n with
  | 0 => true
  | S n' =>
      match s with
      | EmptyString => false
      | String c s' => is_blank c && has_blanks n' s'
      end
  end.

Fixpoint spaces (n : nat) : string :=
  match n with
  | 0 => EmptyString
  | S n' => String SPACE (spaces n')
  end.

(** [split_lines s] is [s.split(/\r\n|\n|\r/)]. *)
Fixpoint split_lines (s : string) : list string :=
  match s with
  | EmptyString => [EmptyString]
  | String c s' =>
      if Ascii.eqb c LF then EmptyString :: split_lines s'
      else if Ascii.eqb c CR then
        match s' with
        | String c2 s2 =>
            if Ascii.eqb c2 LF then EmptyString :: split_lines s2
            else EmptyString :: split_lines s'
        | EmptyString => EmptyString :: split_lines s'
        end
      else
        match split_lines s' with
        | l :: ls => String c l :: ls
        | [] => [String c EmptyString]
        end
  end.

(** ** Template literals: cooked strings

    A template literal denotes its cooked string: escape sequences are
    replaced by the characters they stand for.  For a tagged template an
    ill-formed escape makes the cooked string [undefined] ([None]).
    Hexadecimal, Unicode and octal escapes ([\x], [\u], [\1]..[\9]) do not
    occur in this module and are not decoded: they are reported as [None]
    too, and [\0] is read as the null character whatever follows it. *)

Definition escape (c : ascii) : option string :=
  if Ascii.eqb c "n" then Some (String LF EmptyString)
  else if Ascii.eqb c "t" then Some (String TAB EmptyString)
  else if Ascii.eqb c "r" then Some (String CR EmptyString)
  else if Ascii.eqb c "b" then Some (String (ascii_of_nat 8) EmptyString)
  else if Ascii.eqb c "f" then Some (String (ascii_of_nat 12) EmptyString)
  else if Ascii.eqb c "v" then Some (String (ascii_of_nat 11) EmptyString)
  else if Ascii.eqb c "0" then Some (String NUL EmptyString)
  else if Ascii.eqb c LF then Some EmptyString
  else if Ascii.eqb c "x" || Ascii.eqb c "u" then None
  else if (Nat.leb 49 (nat_of_ascii c) && Nat.leb (nat_of_ascii c) 57)%bool then None
  else Some (String c EmptyString).

Fixpoint cook (raw : string) : option string :=
  match raw with
  | EmptyString => Some EmptyString
  | String c rest =>
      if Ascii.eqb c BACKSLASH then
        match rest with
        | EmptyString => None
        | String e rest' =>
            match escape e, cook rest' with
            | Some out, Some tl => Some (out +:+ tl)
            | _, _ => None
            end
        end
      else
        match cook rest with
        | Some tl => Some (String c tl)
        | None => None
        end
  end.

(** ** The text-dedenting helper

    The five steps of [dedent] on the array of cooked template strings:
    remove the final line break with the blanks after it, collect the
    indentation after every line break that is followed by a blank, remove
    the smallest such indentation after every line break, remove the leading
    line break, and interpolate the values.  The steps come first, [dedent]
    itself after them. *)

Inductive exn := TypeError.

(** [s] matches [/^\r?\n[\t ]*$/]. *)
Definition at_trailing_break (s : string) : bool :=
  match s with
  | EmptyString => false
  | String c1 s1 =>
      if Ascii.eqb c1 LF then only_blanks s1
      else if Ascii.eqb c1 CR then
        match s1 with
        | String c2 s2 => Ascii.eqb c2 LF && only_blanks s2
        | EmptyString => false
        end
      else false
  end.

(** Step 1 replaces the first match of [/\r?\n[\t ]*$/] by the empty string:
    the leftmost position where the rest of the string is a line break
    followed by blanks only. *)
Fixpoint remove_trailing_break (s : string) : string :=
  match s with
  | EmptyString => EmptyString
  | String c s' =>
      if at_trailing_break s then EmptyString
      else String c (remove_trailing_break s')
  end.

(** The lengths, minus one, of the matches of [/\n[\t ]+/g] in [s]. *)
Fixpoint break_indents (s : string) : list nat :=
  match s with
  | EmptyString => []
  | String c s' =>
      if Ascii.eqb c LF then
        match count_blanks s' with
        | 0 => break_indents s'
        | S n => S n :: break_indents s'
        end
      else break_indents s'
  end.

(** [s.replace(new RegExp(`\n[\t ]{size}`, 'g'), '\n')].  [skip] counts the
    blanks of the current match that are still to be dropped. *)
Fixpoint remove_indent (size skip : nat) (s : string) : string :=
  match s with
  | EmptyString => EmptyString
  | String c s' =>
      match skip with
      | S k => remove_indent size k s'
      | 0 =>
          String c
            (remove_indent size
               (if Ascii.eqb c LF && has_blanks size s' then size else 0) s')
      end
  end.

(** [s.replace(/^\r?\n/, '')]. *)
Definition remove_leading_break (s : string) : string :=
  match s with
  | EmptyString => EmptyString
  | String c1 s1 =>
      if Ascii.eqb c1 LF then s1
      else if Ascii.eqb c1 CR then
        match s1 with
        | String c2 s2 => if Ascii.eqb c2 LF then s2 else s
        | EmptyString => s
        end
      else s
  end.

Fixpoint map_last {A : Type} (f : A -> A) (l : list A) : list A :=
  match l with
  | [] => []
  | [x] => [f x]
  | x :: l' => x :: map_last f l'
  end.

Definition map_head {A : Type} (f : A -> A) (l : list A) : list A :=
  match l with
  | [] => []
  | x :: l' => f x :: l'
  end.

(** [string = strings[0]; string += values[i] + strings[i + 1]] for every
    [i]; a missing string reads as [undefined]. *)
Fixpoint interpolate (first : string) (rest values : list string) : string :=
  match values with
  | [] => first
  | v :: vs =>
      match rest with
      | s :: rest' => first +:+ v +:+ interpolate s rest' vs
      | [] => first +:+ v +:+ interpolate "undefined" [] vs
      end
  end.

Definition min_list (n : nat) (ns : list nat) : nat :=
  fold_right Nat.min n ns.

(** Modelled from the spec: [dedent], the text-dedenting helper which the
    module imports from the package dedent-js, is not under src/.  The model
    follows that helper step by step; a call without strings fails when the
    helper reads the last string. *)
Definition dedent (strings values : list string) : exn + string :=
  match strings with
  | [] => inl TypeError
  | _ :: _ =>
      let strings1 := map_last remove_trailing_break strings in
      let matches := concat (map break_indents strings1) in
      let strings2 :=
        match matches with
        | [] => strings1
        | m :: ms => map (remove_indent (min_list m ms) 0) strings1
        end in
      match map_head remove_leading_break strings2 with
      | [] => inl TypeError
      | first :: rest => inr (interpolate first rest values)
      end
  end.

(** The tagged template [dedent`raw`]: no interpolation, one cooked string.
    A cooked string that is [undefined] makes [dedent] fail on its first
    method call. *)
Definition dedent_template (raw : string) : exn + string :=
  match cook raw with
  | Some cooked => dedent [cooked] []
  | None => inl TypeError
  end.

(** ** JSX text

    The text between JSX tags is cleaned when the element is built: the text
    is split into lines, tabs become spaces, the blanks that touch a line
    break are trimmed, empty lines are dropped and the remaining lines are
    joined by one space. *)

Fixpoint tabs_to_spaces (s : string) : string :=
  match s with
  | EmptyString => EmptyString
  | String c s' =>
      String (if Ascii.eqb c TAB then SPACE else c) (tabs_to_spaces s')
  end.

Fixpoint trim_left (s : string) : string :=
  match s with
  | EmptyString => EmptyString
  | String c s' => if Ascii.eqb c SPACE then trim_left s' else s
  end.

Fixpoint trim_right (s : string) : string :=
  match s with
  | EmptyString => EmptyString
  | String c s' =>
      let t := trim_right s' in
      if Ascii.eqb c SPACE && is_empty t then EmptyString else String c t
  end.

Definition has_non_blank (s : string) : bool := negb (only_blanks s).

Fixpoint last_non_empty_line (i acc : nat) (lines : list string) : nat :=
  match lines with
  | [] => acc
  | l :: ls =>
      last_non_empty_line (S i) (if has_non_blank l then i else acc) ls
  end.

Fixpoint clean_lines (i last total : nat) (lines : list string) : string :=
  match lines with
  | [] => EmptyString
  | line :: ls =>
      let t0 := tabs_to_spaces line in
      let t1 := if Nat.eqb i 0 then t0 else trim_left t0 in
      let t2 := if Nat.eqb i (total - 1) then t1 else trim_right t1 in
      let t3 :=
        if is_empty t2 then EmptyString
        else if Nat.eqb i last then t2
        else t2 +:+ " " in
      t3 +:+ clean_lines (S i) last total ls
  end.

Definition jsx_text (value : string) : string :=
  let lines := split_lines value in
  clean_lines 0 (last_non_empty_line 0 0 lines) (length lines) lines.

(** ** Values, objects and the heap *)

(** The components imported from [@/Components]; the module only mentions
    them as element types. *)
Module Components.

Inductive component := A | H1 | H2 | Layout | Notice | P | TabbedCode.

End Components.

Inductive etype :=
| Fragment
| Host (tag : string)
| Comp (c : Components.component).

Definition loc := nat.

(** [VRef] is a reference to an object or array allocated by a literal of
    the module; [VElement] is a React element with its props, and [VArray]
    the children array React builds for an element with several children. *)
Inductive value :=
| VUndefined
| VString (s : string)
| VRef (l : loc)
| VArray (items : list value)
| VElement (type : etype) (props : list (string * value)).

Inductive object :=
| Obj (fields : list (string * value))
| Arr (items : list value).

Definition heap := list object.

(** Computations read and write the heap and may throw. *)
Definition M (T : Type) : Type := heap -> exn + (T * heap).

Definition ret {T : Type} (x : T) : M T := fun h => inr (x, h).

Definition throw {T : Type} (e : exn) : M T := fun _ => inl e.

Definition bind {T U : Type} (m : M T) (f : T -> M U) : M U :=
  fun h =>
    match m h with
    | inl e => inl e
    | inr (x, h') => f x h'
    end.

Notation "'let!' x ':=' m 'in' k" := (bind m (fun x => k))
  (at level 10, x name, m at level 100, k at level 200).

(** The heap lists the allocated objects, the newest first; the location of
    an object is the number of objects allocated before it. *)
Definition heap_get (h : heap) (l : loc) : option object := rev h !! l.

Definition alloc (o : object) : M loc :=
  fun h => inr (length h, o :: h).

(** Defining property [k] on an object under construction: an existing
    property keeps its place and takes the new value. *)
Fixpoint set_prop (k : string) (v : value) (props : list (string * value))
  : list (string * value) :=
  match props with
  | [] => [(k, v)]
  | (k', v') :: props' =>
      if String.eqb k k' then (k, v) :: props'
      else (k', v') :: set_prop k v props'
  end.

Definition define_props (kvs : list (string * value)) : list (string * value) :=
  foldl (fun props kv => set_prop (fst kv) (snd kv) props) [] kvs.

Fixpoint eval_list (ms : list (M value)) : M (list value) :=
  match ms with
  | [] => ret []
  | m :: ms' =>
      let! v := m in
      let! vs := eval_list ms' in
      ret (v :: vs)
  end.

Fixpoint eval_props (ps : list (string * M value)) : M (list (string * value)) :=
  match ps with
  | [] => ret []
  | (k, m) :: ps' =>
      let! v := m in
      let! kvs := eval_props ps' in
      ret ((k, v) :: kvs)
  end.

(** The literals [{ k: e, ... }] and [[e, ...]]: the parts are evaluated from
    left to right and a fresh object is allocated. *)
Definition new_object (ps : list (string * M value)) : M value :=
  let! kvs := eval_props ps in
  let! l := alloc (Obj (define_props kvs)) in
  ret (VRef l).

Definition new_array (ms : list (M value)) : M value :=
  let! vs := eval_list ms in
  let! l := alloc (Arr vs) in
  ret (VRef l).

Definition str (s : string) : M value := ret (VString s).

(** The expression [dedent`raw`]. *)
Definition dedent_tag (raw : string) : M value :=
  match dedent_template raw with
  | inr s => ret (VString s)
  | inl e => throw e
  end.

(** ** React elements

    [createElement type config children]: the props are the attributes apart
    from the reserved [key] and [ref]; one child becomes [props.children],
    several children become the array [props.children].  The imported
    components are taken to declare no default props. *)

Definition reserved_prop (k : string) : bool :=
  String.eqb k "key" || String.eqb k "ref"
  || String.eqb k "__self" || String.eqb k "__source".

Definition createElement (type : etype) (config : list (string * value))
    (children : list value) : value :=
  let props :=
    define_props (filter (fun kv => reserved_prop (fst kv) = false) config) in
  VElement type
    match children with
    | [] => props
    | [child] => set_prop "children" child props
    | _ :: _ :: _ => set_prop "children" (VArray children) props
    end.

Inductive jsx_child :=
| JSXText (raw : string)
| JSXExpr (m : M value).

Fixpoint eval_children (cs : list jsx_child) : M (list value) :=
  match cs with
  | [] => ret []
  | JSXText raw :: cs' =>
      let! vs := eval_children cs' in
      let s := jsx_text raw in
      ret (if is_empty s then vs else VString s :: vs)
  | JSXExpr m :: cs' =>
      let! v := m in
      let! vs := eval_children cs' in
      ret (v :: vs)
  end.

(** A JSX element [<type attrs>children</type>]. *)
Definition jsx (type : etype) (attrs : list (string * M value))
    (children : list jsx_child) : M value :=
  let! config := eval_props attrs in
  let! vs := eval_children children in
  ret (createElement type config vs).

(** ** The code templates of the examples, as written between backquotes *)

Definition laravel_template : string :=
"
              use Throwable;
              use Inertia\\Inertia;\n
              /**
               * Prepare exception for rendering.
               *
               * @param  \\Throwable  $e
               * @return \\Throwable
               */
              public function render($request, Throwable $e)
              {
                  $response = parent::render($request, $e);\n
                  if (!app()->environment(['local', 'testing']) && in_array($response->getStatusCode(), [500, 503, 404, 403])) {
                      return Inertia::render('Error', ['status' => $response->getStatusCode()])
                          ->toResponse($request)
                          ->setStatusCode($response->getStatusCode());
                  } else if ($response->getStatusCode() === 419) {
                      return back()->with([
                          'message' => 'The page expired, please try again.',
                      ]);
                  }\n
                  return $response;
              }
            ".

Definition rails_template : string :=
"
              # todo
            ".

Definition vue2_template : string :=
"
              <template>
                <div>
                  <H1>{{ title }}</H1>
                  <div>{{ description }}</div>
                </div>
              </template>\n
              <script>
              export default {
                props: {
                  status: Number,
                },
                computed: {
                  title() {
                    return {
                      503: '503: Service Unavailable',
                      500: '500: Server Error',
                      404: '404: Page Not Found',
                      403: '403: Forbidden',
                    }[this.status]
                  },
                  description() {
                    return {
                      503: 'Sorry, we are doing some maintenance. Please check back soon.',
                      500: 'Whoops, something went wrong on our servers.',
                      404: 'Sorry, the page you are looking for could not be found.',
                      403: 'Sorry, you are forbidden from accessing this page.',
                    }[this.status]
                  },
                },
              }
              </script>
            ".

Definition vue3_template : string :=
"
              <template>
                <div>
                  <H1>{{ title }}</H1>
                  <div>{{ description }}</div>
                </div>
              </template>\n
              <script>
              export default {
                props: {
                  status: Number,
                },
                computed: {
                  title() {
                    return {
                      503: '503: Service Unavailable',
                      500: '500: Server Error',
                      404: '404: Page Not Found',
                      403: '403: Forbidden',
                    }[this.status]
                  },
                  description() {
                    return {
                      503: 'Sorry, we are doing some maintenance. Please check back soon.',
                      500: 'Whoops, something went wrong on our servers.',
                      404: 'Sorry, the page you are looking for could not be found.',
                      403: 'Sorry, you are forbidden from accessing this page.',
                    }[this.status]
                  },
                },
              }
              </script>
            ".

Definition react_template : string :=
"
              import React from 'react'\n
              export default function ErrorPage({ status }) {
                const title = {
                  503: '503: Service Unavailable',
                  500: '500: Server Error',
                  404: '404: Page Not Found',
                  403: '403: Forbidden',
                }[status]\n
                const description = {
                  503: 'Sorry, we are doing some maintenance. Please check back soon.',
                  500: 'Whoops, something went wrong on our servers.',
                  404: 'Sorry, the page you are looking for could not be found.',
                  403: 'Sorry, you are forbidden from accessing this page.',
                }[status]\n
                return (
                  <div>
                    <H1>{title}</H1>
                    <div>{description}</div>
                  </div>
                )
              }
            ".

Definition svelte_template : string :=
"
              <script>
                export let status\n
                $: title = {
                  503: '503: Service Unavailable',
                  500: '500: Server Error',
                  404: '404: Page Not Found',
                  403: '403: Forbidden',
                }[status]\n
                $: description = {
                  503: 'Sorry, we are doing some maintenance. Please check back soon.',
                  500: 'Whoops, something went wrong on our servers.',
                  404: 'Sorry, the page you are looking for could not be found.',
                  403: 'Sorry, you are forbidden from accessing this page.',
                }[status]
              </script>\n
              <div>
                <H1>{title}</H1>
                <div>{description}</div>
              </div>
            ".

(** The text the Laravel tab is expected to show: the lines of the literal
    without their first 14 blanks, each escape replaced by its character. *)
Definition laravel_code : string :=
"use Throwable;
use Inertia\Inertia;

/**
 * Prepare exception for rendering.
 *
 * @param  \Throwable  $e
 * @return \Throwable
 */
public function render($request, Throwable $e)
{
    $response = parent::render($request, $e);

    if (!app()->environment(['local', 'testing']) && in_array($response->getStatusCode(), [500, 503, 404, 403])) {
        return Inertia::render('Error', ['status' => $response->getStatusCode()])
            ->toResponse($request)
            ->setStatusCode($response->getStatusCode());
    } else if ($response->getStatusCode() === 419) {
        return back()->with([
            'message' => 'The page expired, please try again.',
        ]);
    }

    return $response;
}".

(** A line of the literal: a line of the text behind [n] blanks; an empty
    line stays empty. *)
Definition indent (n : nat) (line : string) : string :=
  if is_empty line then line else spaces n +:+ line.

(** ** The module

    [const meta = { title: ..., links: [...] }] is evaluated once, when the
    module is loaded; the binding is constant and holds a reference to the
    object. *)

Record module_scope := { meta : value }.

Definition load : M module_scope :=
  let! m :=
    new_object [
      ("title", str "Error handling");
      ("links", new_array [
        new_object [("url", str "#development"); ("name", str "Development")];
        new_object [("url", str "#production"); ("name", str "Production")]
      ])
    ] in
  ret {| meta := m |}.

(** [const Page = () => { return (<>...</>) }].  The function declares no
    parameters: the arguments of a call are ignored.  Text that only
    separates two tags on different lines is cleaned to the empty string and
    is left out below; in the first [div] the entity [&hellip;] is written as
    the character it denotes; in the description of the Laravel example the
    source writes each backslash doubled. *)
Definition Page (_ : list value) : M value :=
  jsx Fragment [] [
    JSXExpr (jsx (Comp Components.H1) [] [JSXText "Error handling"]);
    JSXExpr (jsx (Comp Components.H2) [] [JSXText "Development"]);
    JSXExpr (jsx (Comp Components.P) [] [
      JSXText "
        One of the nice things about working with a server-side framework is the built-in exception handling you get for
        free. For example, Laravel ships with ";
      JSXExpr (jsx (Comp Components.A)
                 [("href", str "https://github.com/facade/ignition")]
                 [JSXText "Ignition"]);
      JSXText ", a beautiful
        error reporting tool which displays a nicely formatted stack trace in local development.
      "
    ]);
    JSXExpr (jsx (Comp Components.P) [] [
      JSXText "
        The challenge is, if you're making an XHR request (which Inertia does), and you hit a server-side error, you're
        typically left digging through the network tab in your browser's devtools.
      "
    ]);
    JSXExpr (jsx (Comp Components.P) [] [
      JSXText "
        Inertia solves this by showing all non-Inertia responses in a modal. Meaning you get the same beautiful
        error-reporting, even though you've made that request over XHR!
      "
    ]);
    JSXExpr (jsx (Host "div")
      [("className", str "my-6 relative rounded overflow-hidden bg-gray-500");
       ("style", new_object [("paddingTop", str "80.5%")])]
      [
        JSXExpr (jsx (Host "div")
          [("className", str "absolute inset-0 w-full h-full flex items-center justify-center text-sm")]
          [JSXText "Loading…"]);
        JSXExpr (jsx (Host "iframe")
          [("className", str "absolute inset-0 w-full h-full");
           ("src", str "https://player.vimeo.com/video/363562630?autoplay=1&loop=1&muted=1&background=1")]
          [])
      ]);
    JSXExpr (jsx (Comp Components.Notice) []
      [JSXText "Note, the modal behaviour is only intended for development purposes."]);
    JSXExpr (jsx (Comp Components.H2) [] [JSXText "Production"]);
    JSXExpr (jsx (Comp Components.P) [] [
      JSXText "
        In production you'll want to return a proper Inertia error response instead of relying on the modal behaviour.
        To do this you'll need to update your framework's default exception handler to return a custom error page.
      "
    ]);
    JSXExpr (jsx (Comp Components.TabbedCode)
      [("examples", new_array [
          new_object [
            ("name", str "Laravel");
            ("language", str "php");
            ("description", str "Extend the render() method in your App\Exceptions\Handler.php.");
            ("code", dedent_tag laravel_template)
          ];
          new_object [
            ("name", str "Rails");
            ("language", str "ruby");
            ("code", dedent_tag rails_template)
          ]
        ])]
      []);
    JSXExpr (jsx (Comp Components.P) [] [
      JSXText "
        Notice how we're returning an `Error` page component in the example above. You'll need to actually create this.
        Here's an example error page component you can use as a starting point.
      "
    ]);
    JSXExpr (jsx (Comp Components.TabbedCode)
      [("examples", new_array [
          new_object [
            ("name", str "Vue 2");
            ("language", str "twig");
            ("code", dedent_tag vue2_template)
          ];
          new_object [
            ("name", str "Vue 3");
            ("language", str "twig");
            ("code", dedent_tag vue3_template)
          ];
          new_object [
            ("name", str "React");
            ("language", str "jsx");
            ("code", dedent_tag react_template)
          ];
          new_object [
            ("name", str "Svelte");
            ("language", str "html");
            ("code", dedent_tag svelte_template)
          ]
        ])]
      [])
  ].

(** [Page.layout = page => <Layout children={page} meta={meta} />]. *)
Definition layout (scope : module_scope) (page : value) : M value :=
  jsx (Comp Components.Layout)
    [("children", ret page); ("meta", ret (meta scope))]
    [].

(** ** Observing values

    [reify fuel h v] is the data reachable from [v] in the heap [h], following
    at most [fuel] references along a path ([DCut] marks the place where the
    fuel ran out, [DDangling] a reference to no object); [snapshot] uses the
    size of the heap as fuel, which is enough whenever the heap has no
    cycle. *)

Inductive data :=
| DUndefined
| DString (s : string)
| DObject (fields : list (string * data))
| DArray (items : list data)
| DElement (type : etype) (props : list (string * data))
| DDangling
| DCut.

Fixpoint reify (fuel : nat) (h : heap) : value -> data :=
  fix go (v : value) : data :=
    match v with
    | VUndefined => DUndefined
    | VString s => DString s
    | VArray items => DArray (map go items)
    | VElement type props =>
        DElement type (map (fun kv => (fst kv, go (snd kv))) props)
    | VRef l =>
        match fuel with
        | 0 => DCut
        | S fuel' =>
            match heap_get h l with
            | Some (Obj fields) =>
                DObject (map (fun kv => (fst kv, reify fuel' h (snd kv))) fields)
            | Some (Arr items) => DArray (map (reify fuel' h) items)
            | None => DDangling
            end
        end
    end.

Definition snapshot (h : heap) (v : value) : data := reify (length h) h v.

#[global] Instance component_eq_dec : EqDecision Components.component.
Proof. solve_decision. Defined.

#[global] Instance etype_eq_dec : EqDecision etype.
Proof. solve_decision. Defined.

Fixpoint assoc {T : Type} (k : string) (l : list (string * T)) : option T :=
  match l with
  | [] => None
  | (k', x) :: l' => if String.eqb k k' then Some x else assoc k l'
  end.

(** [get k d] reads the property [k] of an object or the prop [k] of an
    element. *)
Definition get (k : string) (d : data) : option data :=
  match d with
  | DObject fields => assoc k fields
  | DElement _ props => assoc k props
  | _ => None
  end.

Definition keys (d : data) : list string :=
  match d with
  | DObject fields => map fst fields
  | DElement _ props => map fst props
  | _ => []
  end.

Definition items_of (d : option data) : list data :=
  match d with
  | Some (DArray items) => items
  | _ => []
  end.

Definition string_of (d : option data) : option string :=
  match d with
  | Some (DString s) => Some s
  | _ => None
  end.

(** The elements of type [ty] in a tree, parents before children. *)
Fixpoint elements (ty : etype) (d : data) : list data :=
  match d with
  | DElement ty' props =>
      (if bool_decide (ty' = ty) then [d] else [])
      ++ concat (map (fun kv => elements ty (snd kv)) props)
  | DArray items => concat (map (elements ty) items)
  | DObject fields => concat (map (fun kv => elements ty (snd kv)) fields)
  | _ => []
  end.

(** The example objects of every [TabbedCode] element of a tree. *)
Definition tabbed_examples (d : data) : list data :=
  concat (map (fun e => items_of (get "examples" e))
              (elements (Comp Components.TabbedCode) d)).

Definition example_named (name : string) (d : data) : option data :=
  head (filter (fun e => string_of (get "name" e) = Some name) (tabbed_examples d)).

Definition nonempty_string (d : option data) : bool :=
  match d with
  | Some (DString s) => negb (is_empty s)
  | _ => false
  end.

Definition is_string (d : option data) : bool :=
  match d with
  | Some (DString _) => true
  | _ => false
  end.

Definition is_absent (d : option data) : bool :=
  match d with
  | None => true
  | Some _ => false
  end.

(** The values passed as attribute [k] to the elements of a markup tree. *)
Fixpoint attr_values (k : string) (v : value) : list value :=
  match v with
  | VElement _ props =>
      concat (map (fun kv =>
                     (if String.eqb (fst kv) k then [snd kv] else [])
                     ++ attr_values k (snd kv)) props)
  | VArray items => concat (map (attr_values k) items)
  | _ => []
  end.

(** What the page shows, computed once on the empty heap. *)
Definition Page_markup : data :=
  match Page [] [] with
  | inr (v, h) => snapshot h v
  | inl _ => DUndefined
  end.

Definition meta_data : data :=
  match load [] with
  | inr (scope, h) => snapshot h (meta scope)
  | inl _ => DUndefined
  end.

Definition example_field (name field : string) (d : data) : option string :=
  string_of (example_named name d ≫= get field).

(** The shape of an example object: the properties [name], [language] and
    [code] hold strings, [description] is absent or holds a string, and there
    is no other property. *)
Definition example_shape (e : data) : bool :=
  is_string (get "name" e) && is_string (get "language" e)
  && is_string (get "code" e)
  && (is_absent (get "description" e) || is_string (get "description" e))
  && forallb (fun k => bool_decide (k ∈ ["name"; "language"; "description"; "code"]))
             (keys e).

(** The display strings of an example and of the metadata are not empty. *)
Definition example_strings_nonempty (e : data) : bool :=
  nonempty_string (get "name" e) && nonempty_string (get "language" e)
  && nonempty_string (get "code" e)
  && (is_absent (get "description" e) || nonempty_string (get "description" e)).

Definition link_strings_nonempty (l : data) : bool :=
  nonempty_string (get "url" l) && nonempty_string (get "name" l).

Definition meta_strings_nonempty (m : data) : bool :=
  nonempty_string (get "title" m)
  && forallb link_strings_nonempty (items_of (get "links" m)).

(** [complete d]: the data was read in full. *)
Fixpoint complete (d : data) : bool :=
  match d with
  | DUndefined | DString _ => true
  | DObject fields => forallb (fun kv => complete (snd kv)) fields
  | DArray items => forallb complete items
  | DElement _ props => forallb (fun kv => complete (snd kv)) props
  | DDangling | DCut => false
  end.

(** ** Relocation

    A call that only allocates does the same on every heap, up to the
    locations it is given: [shift n] moves every reference by [n]. *)

Fixpoint shift (n : nat) (v : value) : value :=
  match v with
  | VUndefined => VUndefined
  | VString s => VString s
  | VRef l => VRef (l + n)
  | VArray items => VArray (map (shift n) items)
  | VElement type props =>
      VElement type (map (fun kv => (fst kv, shift n (snd kv))) props)
  end.

Definition shift_object (n : nat) (o : object) : object :=
  match o with
  | Obj fields => Obj (map (fun kv => (fst kv, shift n (snd kv))) fields)
  | Arr items => Arr (map (shift n) items)
  end.

(** The result of [Page] and of [load] on the empty heap. *)
Definition Page_value : value :=
  match Page [] [] with
  | inr (v, _) => v
  | inl _ => VUndefined
  end.

Definition Page_objects : list object :=
  match Page [] [] with
  | inr (_, h) => h
  | inl _ => []
  end.

Definition load_objects : list object :=
  match load [] with
  | inr (_, h) => h
  | inl _ => []
  end.

(** ** The operations of the module, as steps on the heap *)

Inductive step (scope : module_scope) : heap -> heap -> Prop :=
| step_render (args : list value) (h h' : heap) (v : value) :
    Page args h = inr (v, h') -> step scope h h'
| step_layout (page : value) (h h' : heap) (v : value) :
    layout scope page h = inr (v, h') -> step scope h h'.

(** [h'] keeps every object of [h] as it is. *)
Definition preserves (h h' : heap) : Prop :=
  forall l o, heap_get h l = Some o -> heap_get h' l = Some o.

(** Induction on values, with the induction hypothesis for the values held
    by an array and by the props of an element. *)
Section value_induction.

Variable Q : value -> Prop.
Hypothesis Q_undefined : Q VUndefined.
Hypothesis Q_string : forall s, Q (VString s).
Hypothesis Q_ref : forall l, Q (VRef l).
Hypothesis Q_array : forall items, Forall Q items -> Q (VArray items).
Hypothesis Q_element :
  forall type props, Forall (fun kv => Q (snd kv)) props -> Q (VElement type props).

Fixpoint value_nested_ind (v : value) : Q v :=
  match v with
  | VUndefined => Q_undefined
  | VString s => Q_string s
  | VRef l => Q_ref l
  | VArray items =>
      Q_array items
        ((fix all (vs : list value) : Forall Q vs :=
            match vs with
            | [] => Forall_nil_2 Q
            | v' :: vs' => Forall_cons_2 Q v' vs' (value_nested_ind v') (all vs')
            end) items)
  | VElement type props =>
      Q_element type props
        ((fix all (kvs : list (string * value))
            : Forall (fun kv => Q (snd kv)) kvs :=
            match kvs with
            | [] => Forall_nil_2 _
            | kv :: kvs' =>
                Forall_cons_2 _ kv kvs' (value_nested_ind (snd kv)) (all kvs')
            end) props)
  end.

End value_induction.

(** [fresh h v]: [v] refers to an object that is not in [h]. *)
Definition fresh (h : heap) (v : value) : Prop :=
  exists l, v = VRef l /\ heap_get h l = None.

(** ** Further observations *)



(** [no_char c s]: the character [c] does not occur in [s]. *)
Fixpoint no_char (c : ascii) (s : string) : bool :=
  match s with
  | EmptyString => true
  | String c' s' => negb (Ascii.eqb c' c) && no_char c s'
  end.

(** A line of text: no line break in it. *)
Definition plain_line (l : string) : bool := no_char LF l && no_char CR l.

(** A line that starts at the first column. *)
Definition flush_left (l : string) : bool :=
  match l with
  | EmptyString => false
  | String c _ => negb (is_blank c)
  end.

Fixpoint join_lines (ls : list string) : string :=
  match ls with
  | [] => EmptyString
  | [l] => l
  | l :: ls' => l +:+ String LF (join_lines ls')
  end.

Fixpoint prefix_of (p s : string) : bool :=
  match p with
  | EmptyString => true
  | String c p' =>
      match s with
      | EmptyString => false
      | String c' s' => Ascii.eqb c c' && prefix_of p' s'
      end
  end.

(** The number of places of [s] where [p] starts. *)
Fixpoint occurrences (p s : string) : nat :=
  match s with
  | EmptyString => if is_empty p then 1 else 0
  | String _ s' => (if prefix_of p s then 1 else 0) + occurrences p s'
  end.

Definition lower (c : ascii) : ascii :=
  let n := nat_of_ascii c in
  if Nat.leb 65 n && Nat.leb n 90 then ascii_of_nat (n + 32) else c.

Fixpoint lowercase (s : string) : string :=
  match s with
  | EmptyString => EmptyString
  | String c s' => String (lower c) (lowercase s')
  end.

Definition is_digit (c : ascii) : bool :=
  Nat.leb 48 (nat_of_ascii c) && Nat.leb (nat_of_ascii c) 57.

Definition starts_with_digit (l : string) : bool :=
  match l with
  | EmptyString => false
  | String c _ => is_digit c
  end.

(** The lines of a code text that start, after their blanks, with a digit:
    the entries of the tables from status codes to texts, without their
    indentation. *)
Definition table_lines (code : string) : list string :=
  List.filter starts_with_digit (map trim_left (split_lines code)).

(** The texts of the elements of type [ty] in a tree. *)
Definition texts_of (ty : etype) (d : data) : list (option string) :=
  map (fun e => string_of (get "children" e)) (elements ty d).

(** [blocks f ls]: every line of [ls], changed by [f], behind a line break. *)
Definition blocks (f : string -> string) (ls : list string) : string :=
  fold_right (fun l acc => String LF (f l +:+ acc)) EmptyString ls.

(** * Properties *)

(** ** The helpers on small inputs *)

Example cook_escapes :
  cook "a\\b\n" = Some "a\b
".
Proof. reflexivity. Qed.

Example cook_ill_formed : cook "\u" = None.
Proof. reflexivity. Qed.

Example dedent_two_lines :
  dedent ["
      first
        second
    "] [] = inr "first
  second".
Proof. reflexivity. Qed.

Example dedent_keeps_empty_lines :
  dedent ["
    a

    b
  "] [] = inr "a

b".
Proof. reflexivity. Qed.

Example dedent_interpolates :
  dedent ["
  x = "; "
  y
"] ["1"] = inr "x = 1
y".
Proof. reflexivity. Qed.

Example dedent_no_strings : dedent [] [] = inl TypeError.
Proof. reflexivity. Qed.

Example jsx_text_joins_lines :
  jsx_text "
      one
      two  three
    " = "one two  three".
Proof. reflexivity. Qed.

Example jsx_text_keeps_inner_end :
  jsx_text "
      ends with a blank " = "ends with a blank ".
Proof. reflexivity. Qed.

Example jsx_text_separator :
  jsx_text "
      " = "".
Proof. reflexivity. Qed.

Example createElement_one_child :
  createElement (Host "div") [("key", VString "k"); ("id", VString "x")] [VString "a"]
  = VElement (Host "div") [("id", VString "x"); ("children", VString "a")].
Proof. reflexivity. Qed.

Example createElement_children :
  createElement Fragment [] [VString "a"; VString "b"]
  = VElement Fragment [("children", VArray [VString "a"; VString "b"])].
Proof. reflexivity. Qed.

(** ** The heap *)

Lemma heap_get_old (new h : heap) l o :
  heap_get h l = Some o -> heap_get (new ++ h) l = Some o.
Proof.
  unfold heap_get. intros H. rewrite rev_app_distr.
  by apply lookup_app_l_Some.
Qed.

Lemma heap_get_new (new h : heap) k :
  heap_get (new ++ h) (k + length h) = heap_get new k.
Proof.
  unfold heap_get. rewrite rev_app_distr.
  rewrite lookup_app_r; rewrite length_rev; [|lia].
  f_equal. lia.
Qed.

Lemma heap_get_shift n (new : heap) k :
  heap_get (map (shift_object n) new) k = shift_object n <$> heap_get new k.
Proof.
  unfold heap_get. rewrite <- map_rev. apply list_lookup_fmap.
Qed.

Lemma heap_get_fresh (h : heap) l : length h <= l -> heap_get h l = None.
Proof.
  intros Hl. unfold heap_get. apply lookup_ge_None. by rewrite length_rev.
Qed.

Lemma heap_get_bound (h : heap) l o : heap_get h l = Some o -> l < length h.
Proof.
  unfold heap_get. intros H. apply lookup_lt_Some in H. by rewrite length_rev in H.
Qed.

Lemma preserves_refl h : preserves h h.
Proof. by intros l o. Qed.

Lemma preserves_trans h1 h2 h3 :
  preserves h1 h2 -> preserves h2 h3 -> preserves h1 h3.
Proof. intros H12 H23 l o Hl. by apply H23, H12. Qed.

Lemma preserves_app new h : preserves h (new ++ h).
Proof. intros l o. apply heap_get_old. Qed.

Lemma preserves_length h h' : preserves h h' -> length h <= length h'.
Proof.
  destruct h as [|o h]; simpl; [lia|]. intros Hp.
  assert (heap_get (o :: h) (length h) = Some o) as Hl.
  { unfold heap_get. simpl. rewrite lookup_app_r; rewrite length_rev; [|lia].
    by rewrite Nat.sub_diag. }
  apply Hp, heap_get_bound in Hl. lia.
Qed.

(** ** Reading data *)

Lemma reify_undefined fuel h : reify fuel h VUndefined = DUndefined.
Proof. by destruct fuel. Qed.

Lemma reify_string fuel h s : reify fuel h (VString s) = DString s.
Proof. by destruct fuel. Qed.

Lemma reify_array fuel h items :
  reify fuel h (VArray items) = DArray (map (reify fuel h) items).
Proof. by destruct fuel. Qed.

Lemma reify_element fuel h type props :
  reify fuel h (VElement type props)
  = DElement type (map (fun kv => (fst kv, reify fuel h (snd kv))) props).
Proof. by destruct fuel. Qed.

Lemma reify_ref fuel h l :
  reify (S fuel) h (VRef l)
  = match heap_get h l with
    | Some (Obj fields) =>
        DObject (map (fun kv => (fst kv, reify fuel h (snd kv))) fields)
    | Some (Arr items) => DArray (map (reify fuel h) items)
    | None => DDangling
    end.
Proof. reflexivity. Qed.

Lemma reify_ref_cut h l : reify 0 h (VRef l) = DCut.
Proof. reflexivity. Qed.

Lemma map_props_ext {T U V : Type} (f : U -> V) (g : T -> U) (f' : T -> V)
    (kvs : list (string * T)) :
  Forall (fun kv => f (g (snd kv)) = f' (snd kv)) kvs ->
  map (fun kv => (fst kv, f (snd kv))) (map (fun kv => (fst kv, g (snd kv))) kvs)
  = map (fun kv => (fst kv, f' (snd kv))) kvs.
Proof.
  induction 1 as [|kv kvs Hkv _ IH]; simpl; [done|]. by rewrite Hkv, IH.
Qed.

Lemma map_items_ext {T U V : Type} (f : U -> V) (g : T -> U) (f' : T -> V)
    (l : list T) :
  Forall (fun x => f (g x) = f' x) l -> map f (map g l) = map f' l.
Proof.
  induction 1 as [|x l Hx _ IH]; simpl; [done|]. by rewrite Hx, IH.
Qed.

Lemma complete_items {T : Type} (f : T -> data) (l : list T) :
  forallb complete (map f l) = true -> Forall (fun x => complete (f x) = true) l.
Proof.
  induction l as [|x l IH]; simpl; intros H; constructor;
    apply andb_prop in H as [Hx Hl]; auto.
Qed.

Lemma complete_props {T : Type} (f : T -> data) (kvs : list (string * T)) :
  forallb (fun kv => complete (snd kv)) (map (fun kv => (fst kv, f (snd kv))) kvs) = true ->
  Forall (fun kv => complete (f (snd kv)) = true) kvs.
Proof.
  induction kvs as [|kv kvs IH]; simpl; intros H; constructor;
    apply andb_prop in H as [Hx Hl]; auto.
Qed.

(** A relocated value reads in the relocated heap as the value reads in the
    heap it was computed in. *)
Lemma reify_shift fuel (h new : heap) v :
  reify fuel (map (shift_object (length h)) new ++ h) (shift (length h) v)
  = reify fuel new v.
Proof.
  revert v. induction fuel as [|fuel IH]; intros v;
    induction v as [| |l|items IHv|type props IHv] using value_nested_ind;
    cbn [shift];
    rewrite ?reify_undefined, ?reify_string, ?reify_array, ?reify_element,
      ?reify_ref, ?reify_ref_cut; try done.
  - f_equal. by apply map_items_ext.
  - f_equal. by apply map_props_ext.
  - rewrite heap_get_new, heap_get_shift.
    destruct (heap_get new l) as [[fields|items]|]; cbn [fmap option_fmap option_map shift_object]; try done.
    + f_equal. apply map_props_ext, Forall_forall. auto.
    + f_equal. apply map_items_ext, Forall_forall. auto.
  - f_equal. by apply map_items_ext.
  - f_equal. by apply map_props_ext.
Qed.

(** Data that was read in full reads the same, with at least as much fuel, in
    every heap that keeps the objects of the first one. *)
Lemma reify_stable fuel fuel' (h h' : heap) v :
  preserves h h' -> fuel <= fuel' -> complete (reify fuel h v) = true ->
  reify fuel' h' v = reify fuel h v.
Proof.
  intros Hp. revert fuel fuel' v.
  assert (forall fuel fuel' items,
    Forall (fun v => complete (reify fuel h v) = true ->
                     reify fuel' h' v = reify fuel h v) items ->
    forallb complete (map (reify fuel h) items) = true ->
    map (reify fuel' h') items = map (reify fuel h) items) as Hitems.
  { intros fuel fuel' items IHv Hc. apply map_ext_Forall.
    apply complete_items in Hc.
    rewrite Forall_forall in IHv, Hc. apply Forall_forall.
    intros x Hx. auto. }
  assert (forall fuel fuel' (props : list (string * value)),
    Forall (fun kv => complete (reify fuel h (snd kv)) = true ->
                      reify fuel' h' (snd kv) = reify fuel h (snd kv)) props ->
    forallb (fun kv => complete (snd kv))
            (map (fun kv => (fst kv, reify fuel h (snd kv))) props) = true ->
    map (fun kv => (fst kv, reify fuel' h' (snd kv))) props
    = map (fun kv => (fst kv, reify fuel h (snd kv))) props) as Hprops.
  { intros fuel fuel' props IHv Hc. apply map_ext_Forall.
    apply complete_props in Hc.
    rewrite Forall_forall in IHv, Hc. apply Forall_forall.
    intros x Hx. f_equal. auto. }
  intros fuel. induction fuel as [|fuel IH]; intros fuel' v Hle;
    induction v as [| |l|items IHv|type props IHv] using value_nested_ind;
    rewrite ?reify_undefined, ?reify_string, ?reify_array, ?reify_element,
      ?reify_ref_cut; cbn [complete]; try done; intros Hc; try (f_equal; by auto).
  destruct fuel' as [|fuel']; [lia|]. rewrite !reify_ref in *.
  destruct (heap_get h l) as [[fields|items]|] eqn:Hl; [| |done];
    rewrite (Hp _ _ Hl); cbn [complete] in Hc; f_equal.
  - apply Hprops; [|done]. apply Forall_forall. intros kv _. apply IH. lia.
  - apply Hitems; [|done]. apply Forall_forall. intros x _. apply IH. lia.
Qed.

Lemma snapshot_stable (h h' : heap) v :
  preserves h h' -> complete (snapshot h v) = true -> snapshot h' v = snapshot h v.
Proof.
  intros Hp Hc. unfold snapshot in *.
  apply reify_stable; [done| by apply preserves_length |done].
Qed.

(** ** Running the module *)

(** Closed facts about the module are settled by evaluation. *)
Ltac evaluate := vm_compute; reflexivity.


Lemma Page_relocates args h :
  Page args h
  = inr (shift (length h) Page_value,
         map (shift_object (length h)) Page_objects ++ h).
Proof. evaluate. Qed.

Lemma load_relocates h :
  load h
  = inr ({| meta := VRef (3 + length h) |},
         map (shift_object (length h)) load_objects ++ h).
Proof. evaluate. Qed.

Lemma Page_run args h :
  exists v new,
    Page args h = inr (v, new ++ h)
    /\ snapshot (new ++ h) v = Page_markup
    /\ attr_values "examples" v = [VRef (3 + length h); VRef (8 + length h)].
Proof.
  eexists _, _. split; [apply Page_relocates|]. split.
  - unfold snapshot. rewrite reify_shift. evaluate.
  - generalize (length h). intros n. evaluate.
Qed.

Lemma load_run h :
  exists scope new,
    load h = inr (scope, new ++ h)
    /\ snapshot (new ++ h) (meta scope) = meta_data.
Proof.
  eexists _, _. split; [apply load_relocates|].
  unfold snapshot. cbn [meta].
  change (VRef (3 + length h)) with (shift (length h) (VRef 3)).
  rewrite reify_shift. evaluate.
Qed.

Lemma layout_run scope page h :
  layout scope page h
  = inr (VElement (Comp Components.Layout)
           [("children", page); ("meta", meta scope)], h).
Proof. reflexivity. Qed.

Lemma step_preserves scope h h' : step scope h h' -> preserves h h'.
Proof.
  intros [args h1 h2 v Hrun|page h1 h2 v Hrun].
  - destruct (Page_run args h1) as (v' & new & Hv & _ & _).
    rewrite Hv in Hrun. injection Hrun as _ <-. apply preserves_app.
  - rewrite layout_run in Hrun. injection Hrun as _ <-. apply preserves_refl.
Qed.

Lemma steps_preserve scope h h' : rtc (step scope) h h' -> preserves h h'.
Proof.
  induction 1 as [h|h1 h2 h3 Hstep _ IH]; [apply preserves_refl|].
  eapply preserves_trans; [by eapply step_preserves|done].
Qed.

(** ** The metadata *)

(** C1: the navigation metadata [meta.links] holds exactly two entries, with
    url [#development] and name [Development], then url [#production] and
    name [Production]; the links define no other anchor fragment. *)
Theorem meta_links_exact (h0 : heap) :
  exists scope h,
    load h0 = inr (scope, h)
    /\ items_of (get "links" (snapshot h (meta scope)))
       = [DObject [("url", DString "#development"); ("name", DString "Development")];
          DObject [("url", DString "#production"); ("name", DString "Production")]]
    /\ map (fun l => string_of (get "url" l))
           (items_of (get "links" (snapshot h (meta scope))))
       = [Some "#development"; Some "#production"].
Proof.
  destruct (load_run h0) as (scope & new & Hload & Hsnap).
  exists scope, (new ++ h0). rewrite Hsnap. split; [done|].
  split; evaluate.
Qed.

(** ** The code of the examples *)

(** C2, as the claim states it, fails: the code of the Laravel example is
    neither the text written between the backquotes nor the string which
    that text denotes. *)
Lemma laravel_code_not_literal :
  exists v h,
    Page [] [] = inr (v, h)
    /\ example_field "Laravel" "code" (snapshot h v) <> Some laravel_template
    /\ example_field "Laravel" "code" (snapshot h v) <> cook laravel_template.
Proof.
  eexists _, _. split; [evaluate|].
  split; vm_compute; discriminate.
Qed.

(** C2, amended: at every call of [Page] the code of the Laravel example is
    the literal with its escapes replaced, without the line break that opens
    it, without the 14 blanks that start each of its lines and without the
    line break and the 12 blanks that close it; line by line, the literal is
    the code behind 14 blanks. *)
Theorem laravel_code_dedented_literal (args : list value) (h : heap) :
  exists v h' cooked,
    Page args h = inr (v, h')
    /\ example_field "Laravel" "code" (snapshot h' v) = Some laravel_code
    /\ cook laravel_template = Some cooked
    /\ split_lines cooked
       = EmptyString :: map (indent 14) (split_lines laravel_code) ++ [spaces 12].
Proof.
  destruct (Page_run args h) as (v & new & Hrun & Hsnap & _).
  exists v, (new ++ h). eexists. rewrite Hsnap. split; [done|].
  split; [evaluate|].
  split; evaluate.
Qed.

(** C9: in the second [TabbedCode], the examples named [Vue 2] and [Vue 3]
    hold the same code, character for character; the two literals are the
    same text. *)
Theorem vue_codes_identical (args : list value) (h : heap) :
  exists v h' examples vue2 vue3 code,
    Page args h = inr (v, h')
    /\ elements (Comp Components.TabbedCode) (snapshot h' v) !! 1 = Some examples
    /\ items_of (get "examples" examples) !! 0 = Some vue2
    /\ items_of (get "examples" examples) !! 1 = Some vue3
    /\ get "name" vue2 = Some (DString "Vue 2")
    /\ get "name" vue3 = Some (DString "Vue 3")
    /\ get "code" vue2 = Some (DString code)
    /\ get "code" vue3 = Some (DString code)
    /\ vue2_template = vue3_template.
Proof.
  destruct (Page_run args h) as (v & new & Hrun & Hsnap & _).
  exists v, (new ++ h). rewrite Hsnap.
  do 4 eexists. split; [done|].
  repeat (split; [evaluate|]). reflexivity.
Qed.

(** ** The page *)

(** C3: every call of [Page] returns a tree whose first child is an [H1]
    element with the text [Error handling], the only [H1] element of the
    tree; the title of the metadata is the string [Error handling]. *)
Theorem page_heading_and_title (args : list value) (h h0 : heap) :
  exists v h' children scope h1,
    Page args h = inr (v, h')
    /\ snapshot h' v = DElement Fragment [("children", DArray children)]
    /\ children !! 0
       = Some (DElement (Comp Components.H1) [("children", DString "Error handling")])
    /\ elements (Comp Components.H1) (snapshot h' v)
       = [DElement (Comp Components.H1) [("children", DString "Error handling")]]
    /\ load h0 = inr (scope, h1)
    /\ get "title" (snapshot h1 (meta scope)) = Some (DString "Error handling").
Proof.
  destruct (Page_run args h) as (v & new & Hrun & Hsnap & _).
  destruct (load_run h0) as (scope & new0 & Hload & Hmeta).
  exists v, (new ++ h). eexists. exists scope, (new0 ++ h0).
  rewrite Hsnap, Hmeta. split; [done|].
  split; [evaluate|].
  split; [evaluate|].
  split; [evaluate|].
  split; [done|]. evaluate.
Qed.

(** C4: [Page] is a constant function: whatever the arguments and the heap,
    the call returns, and two calls return trees with the same content. *)
Theorem Page_constant (args1 args2 : list value) (h1 h2 : heap) :
  exists v1 h1' v2 h2',
    Page args1 h1 = inr (v1, h1')
    /\ Page args2 h2 = inr (v2, h2')
    /\ snapshot h1' v1 = snapshot h2' v2
    /\ complete (snapshot h1' v1) = true.
Proof.
  destruct (Page_run args1 h1) as (v1 & new1 & Hrun1 & Hsnap1 & _).
  destruct (Page_run args2 h2) as (v2 & new2 & Hrun2 & Hsnap2 & _).
  exists v1, (new1 ++ h1), v2, (new2 ++ h2).
  rewrite Hsnap1, Hsnap2. do 3 (split; [done|]). evaluate.
Qed.

(** C5: every example object passed to a [TabbedCode] element has the
    properties [name], [language] and [code], each a string, and no property
    besides these and [description]; [description] is a string on some
    examples and absent on others. *)
Theorem examples_shape (args : list value) (h : heap) :
  exists v h',
    Page args h = inr (v, h')
    /\ length (elements (Comp Components.TabbedCode) (snapshot h' v)) = 2
    /\ length (tabbed_examples (snapshot h' v)) = 6
    /\ forallb example_shape (tabbed_examples (snapshot h' v)) = true
    /\ existsb (fun e => is_string (get "description" e))
               (tabbed_examples (snapshot h' v)) = true
    /\ existsb (fun e => is_absent (get "description" e))
               (tabbed_examples (snapshot h' v)) = true.
Proof.
  destruct (Page_run args h) as (v & new & Hrun & Hsnap & _).
  exists v, (new ++ h). rewrite Hsnap. split; [done|].
  repeat split; evaluate.
Qed.

(** C6: the display strings of the structured data are not empty: the title
    of the metadata, the url and the name of each of its two links, and the
    name, the language, the code and, where there is one, the description of
    each of the six examples. *)
Theorem display_strings_nonempty (args : list value) (h h0 : heap) :
  exists scope h1 v h',
    load h0 = inr (scope, h1)
    /\ Page args h = inr (v, h')
    /\ meta_strings_nonempty (snapshot h1 (meta scope)) = true
    /\ length (items_of (get "links" (snapshot h1 (meta scope)))) = 2
    /\ forallb example_strings_nonempty (tabbed_examples (snapshot h' v)) = true
    /\ length (tabbed_examples (snapshot h' v)) = 6.
Proof.
  destruct (Page_run args h) as (v & new & Hrun & Hsnap & _).
  destruct (load_run h0) as (scope & new0 & Hload & Hmeta).
  exists scope, (new0 ++ h0), v, (new ++ h).
  rewrite Hsnap, Hmeta. do 2 (split; [done|]).
  repeat split; evaluate.
Qed.

(** ** Effects and errors *)

(** C7, as the claim states it, fails for the example arrays: they do not
    exist once the module is loaded.  The arrays a first call of [Page]
    passes to the two [TabbedCode] elements are allocated by that call, and a
    second call allocates two other arrays. *)
Lemma example_arrays_created_by_render :
  exists scope h0 v1 h1 v2 h2,
    load [] = inr (scope, h0)
    /\ Page [] h0 = inr (v1, h1)
    /\ Page [] h1 = inr (v2, h2)
    /\ attr_values "examples" v1 = [VRef 7; VRef 12]
    /\ heap_get h0 7 = None /\ heap_get h0 12 = None
    /\ attr_values "examples" v2 = [VRef 16; VRef 21]
    /\ heap_get h1 16 = None /\ heap_get h1 21 = None.
Proof.
  do 6 eexists.
  do 8 (split; [evaluate|]). evaluate.
Qed.

(** C7, amended: the meta object is created when the module is loaded and
    is never mutated afterwards: after any sequence of calls of [Page] and
    [Page.layout] the metadata reads as it did, every object of the heap is
    kept, and so is every value that could be read in full.  The example
    arrays are not created at load: every call of [Page] allocates the two
    arrays it passes to the [TabbedCode] elements. *)
Theorem loaded_data_never_mutated (h0 : heap) (scope : module_scope) (h h' : heap) :
  load h0 = inr (scope, h) ->
  rtc (step scope) h h' ->
  snapshot h (meta scope) = meta_data
  /\ snapshot h' (meta scope) = meta_data
  /\ preserves h h'
  /\ (forall v, complete (snapshot h v) = true -> snapshot h' v = snapshot h v)
  /\ (forall args, exists v new,
        Page args h' = inr (v, new ++ h')
        /\ length (attr_values "examples" v) = 2
        /\ Forall (fresh h') (attr_values "examples" v)).
Proof.
  intros Hload Hsteps.
  destruct (load_run h0) as (scope' & new & Hload' & Hmeta).
  rewrite Hload in Hload'. injection Hload' as <- ->.
  pose proof (steps_preserve _ _ _ Hsteps) as Hp.
  assert (forall v, complete (snapshot (new ++ h0) v) = true ->
                    snapshot h' v = snapshot (new ++ h0) v) as Hkept.
  { intros v Hc. by apply snapshot_stable. }
  split; [done|]. split.
  { rewrite Hkept; [done|]. rewrite Hmeta. evaluate. }
  split; [done|]. split; [done|].
  intros args. destruct (Page_run args h') as (v & new' & Hrun & _ & Hrefs).
  exists v, new'. split; [done|]. rewrite Hrefs. split; [done|].
  repeat constructor; eexists; (split; [reflexivity|]); apply heap_get_fresh; lia.
Qed.

Lemma loaded_data_never_mutated_witness :
  load [] = inr ({| meta := VRef 3 |}, load_objects)
  /\ rtc (step {| meta := VRef 3 |}) load_objects
         (map (shift_object 4) Page_objects ++ load_objects)
  /\ (snapshot load_objects (VRef 3) = meta_data
      /\ snapshot (map (shift_object 4) Page_objects ++ load_objects) (VRef 3)
         = meta_data
      /\ preserves load_objects (map (shift_object 4) Page_objects ++ load_objects)
      /\ (forall v, complete (snapshot load_objects v) = true ->
            snapshot (map (shift_object 4) Page_objects ++ load_objects) v
            = snapshot load_objects v)
      /\ (forall args, exists v new,
            Page args (map (shift_object 4) Page_objects ++ load_objects)
            = inr (v, new ++ map (shift_object 4) Page_objects ++ load_objects)
            /\ length (attr_values "examples" v) = 2
            /\ Forall (fresh (map (shift_object 4) Page_objects ++ load_objects))
                      (attr_values "examples" v))).
Proof.
  assert (load [] = inr ({| meta := VRef 3 |}, load_objects)) as Hload
    by (vm_compute; reflexivity).
  assert (rtc (step {| meta := VRef 3 |}) load_objects
              (map (shift_object 4) Page_objects ++ load_objects)) as Hsteps.
  { eapply rtc_l; [eapply (step_render _ []); vm_compute; reflexivity|].
    eapply rtc_l; [eapply (step_layout _ VUndefined); vm_compute; reflexivity|].
    apply rtc_refl. }
  split; [exact Hload|]. split; [exact Hsteps|].
  exact (loaded_data_never_mutated [] _ _ _ Hload Hsteps).
Defined.

(** C8: no operation of the module fails: loading the module, calling
    [Page] and calling [Page.layout] return on every input and every heap. *)
Theorem operations_total :
  (forall h, exists scope h', load h = inr (scope, h'))
  /\ (forall args h, exists v h', Page args h = inr (v, h'))
  /\ (forall scope page h, exists v h', layout scope page h = inr (v, h')).
Proof.
  split; [|split].
  - intros h. destruct (load_run h) as (scope & new & Hload & _). eauto.
  - intros args h. destruct (Page_run args h) as (v & new & Hrun & _). eauto.
  - intros scope page h. rewrite layout_run. eauto.
Qed.

(** C10: for every page node [page], [Page.layout] returns a [Layout]
    element whose props are [children], which is [page] itself, and [meta],
    which is the reference to the meta object the module created when it was
    loaded; nothing is allocated or changed. *)
Theorem layout_wraps_page (h0 : heap) :
  exists scope h1,
    load h0 = inr (scope, h1)
    /\ snapshot h1 (meta scope) = meta_data
    /\ forall page h,
         layout scope page h
         = inr (VElement (Comp Components.Layout)
                  [("children", page); ("meta", meta scope)], h).
Proof.
  destruct (load_run h0) as (scope & new & Hload & Hmeta).
  exists scope, (new ++ h0). split; [done|]. split; [done|].
  intros page h. apply layout_run.
Qed.

(** * Further properties *)

(** ** Strings *)

Lemma append_cons x (a b : string) : String x a +:+ b = String x (a +:+ b).
Proof. reflexivity. Qed.

Lemma append_empty_l (b : string) : EmptyString +:+ b = b.
Proof. reflexivity. Qed.

Lemma append_assoc_string (a b c : string) : (a +:+ b) +:+ c = a +:+ (b +:+ c).
Proof.
  induction a as [|x a IH]; [done|]. rewrite !append_cons. by rewrite IH.
Qed.

Lemma append_empty_r (a : string) : a +:+ EmptyString = a.
Proof. induction a as [|x a IH]; [done|]. rewrite append_cons. by rewrite IH. Qed.

Lemma no_char_app c (a b : string) :
  no_char c (a +:+ b) = no_char c a && no_char c b.
Proof.
  induction a as [|x a IH]; [done|]. rewrite append_cons. simpl.
  rewrite IH. by rewrite andb_assoc.
Qed.

Lemma no_char_spaces c n : c <> SPACE -> no_char c (spaces n) = true.
Proof.
  intros Hc. induction n as [|n IH]; cbn [spaces no_char]; [done|]. rewrite IH.
  destruct (Ascii.eqb_spec SPACE c); [congruence|done].
Qed.

Lemma only_blanks_spaces n : only_blanks (spaces n) = true.
Proof. induction n as [|n IH]; simpl; [done|]. exact IH. Qed.

Lemma only_blanks_break (a b : string) : only_blanks (a +:+ String LF b) = false.
Proof.
  induction a as [|x a IH]; [done|]. rewrite append_cons. simpl.
  rewrite IH. apply andb_false_r.
Qed.

Lemma has_blanks_spaces n (s : string) : has_blanks n (spaces n +:+ s) = true.
Proof. induction n as [|n IH]; [done|]. simpl spaces. rewrite append_cons. exact IH. Qed.

Lemma count_blanks_spaces n (s : string) :
  count_blanks (spaces n +:+ s) = n + count_blanks s.
Proof.
  induction n as [|n IH]; [done|]. simpl spaces. rewrite append_cons.
  simpl. by rewrite IH.
Qed.

(** ** Cooked strings *)


(** ** The text-dedenting helper *)

Lemma join_blocks (f : string -> string) (ls : list string) :
  ls <> [] -> String LF (join_lines (map f ls)) = blocks f ls.
Proof.
  induction ls as [|l ls IH]; [done|]. intros _.
  destruct ls as [|l2 ls].
  - cbn [map join_lines blocks fold_right]. by rewrite append_empty_r.
  - change (join_lines (map f (l :: l2 :: ls)))
      with (f l +:+ String LF (join_lines (map f (l2 :: ls)))).
    rewrite IH by done. reflexivity.
Qed.

Lemma blocks_no_char c (f : string -> string) (ls : list string) :
  c <> LF -> Forall (fun l => no_char c (f l) = true) ls ->
  no_char c (blocks f ls) = true.
Proof.
  intros Hc. induction 1 as [|l ls Hl _ IH]; [done|].
  cbn [blocks fold_right no_char]. fold (blocks f ls).
  rewrite no_char_app, Hl, IH.
  destruct (Ascii.eqb_spec LF c); [congruence|done].
Qed.

Lemma count_blanks_blocks (f : string -> string) (ls : list string) :
  count_blanks (blocks f ls) = 0.
Proof. by destruct ls. Qed.

Lemma count_blanks_app (l rest : string) :
  count_blanks rest = 0 -> count_blanks (l +:+ rest) = count_blanks l.
Proof.
  intros Hrest. induction l as [|c l IH]; [done|].
  rewrite append_cons. cbn [count_blanks]. by rewrite IH.
Qed.

Lemma has_blanks_none n (rest : string) :
  0 < n -> count_blanks rest = 0 -> has_blanks n rest = false.
Proof.
  intros Hn Hrest. destruct n as [|n]; [lia|].
  destruct rest as [|c rest]; [done|]. cbn [has_blanks count_blanks] in *.
  by destruct (is_blank c).
Qed.

Lemma indent_empty n : indent n EmptyString = EmptyString.
Proof. reflexivity. Qed.

Lemma indent_cons n c (l : string) :
  indent n (String c l) = spaces n +:+ String c l.
Proof. reflexivity. Qed.

Lemma no_char_indent c n (l : string) :
  c <> SPACE -> no_char c (indent n l) = no_char c l.
Proof.
  intros Hc. unfold indent. destruct (is_empty l); [done|].
  by rewrite no_char_app, no_char_spaces.
Qed.

(** Step 1 removes the last line break and the blanks behind it, nothing
    else. *)
Lemma remove_trailing_break_final (x : string) m :
  no_char CR x = true ->
  remove_trailing_break (x +:+ String LF (spaces m)) = x.
Proof.
  induction x as [|c x IH]; intros Hx.
  - rewrite append_empty_l. cbn [remove_trailing_break at_trailing_break].
    by rewrite Ascii.eqb_refl, only_blanks_spaces.
  - cbn [no_char] in Hx. apply andb_prop in Hx as [Hc Hx].
    apply negb_true_iff in Hc.
    rewrite append_cons. cbn [remove_trailing_break at_trailing_break].
    rewrite Hc, only_blanks_break, (IH Hx).
    by destruct (Ascii.eqb c LF).
Qed.

Lemma break_indents_plain (a rest : string) :
  no_char LF a = true -> break_indents (a +:+ rest) = break_indents rest.
Proof.
  induction a as [|c a IH]; [done|]. intros Ha.
  cbn [no_char] in Ha. apply andb_prop in Ha as [Hc Ha].
  apply negb_true_iff in Hc.
  rewrite append_cons. cbn [break_indents]. rewrite Hc. auto.
Qed.

Lemma remove_indent_plain n (a rest : string) :
  no_char LF a = true ->
  remove_indent n 0 (a +:+ rest) = a +:+ remove_indent n 0 rest.
Proof.
  induction a as [|c a IH]; [done|]. intros Ha.
  cbn [no_char] in Ha. apply andb_prop in Ha as [Hc Ha].
  apply negb_true_iff in Hc.
  rewrite !append_cons. cbn [remove_indent]. rewrite Hc. cbn [andb].
  by rewrite IH.
Qed.

Lemma remove_indent_skip n k (rest : string) :
  remove_indent n k (spaces k +:+ rest) = remove_indent n 0 rest.
Proof.
  induction k as [|k IH]; [done|]. cbn [spaces]. rewrite append_cons.
  cbn [remove_indent]. exact IH.
Qed.

(** Step 3 undoes [indent n] on every line. *)
Lemma remove_indent_blocks n (ls : list string) :
  0 < n -> Forall (fun l => no_char LF l = true) ls ->
  remove_indent n 0 (blocks (indent n) ls) = blocks id ls.
Proof.
  intros Hn. induction 1 as [|l ls Hl _ IH]; [done|].
  cbn [blocks fold_right]. fold (blocks (indent n) ls). fold (blocks id ls).
  cbn [remove_indent]. rewrite Ascii.eqb_refl. cbn [andb].
  destruct l as [|c l].
  - rewrite indent_empty, !append_empty_l.
    rewrite has_blanks_none by (done || apply count_blanks_blocks).
    by rewrite IH.
  - rewrite indent_cons, append_assoc_string.
    rewrite has_blanks_spaces, remove_indent_skip.
    rewrite remove_indent_plain by done. by rewrite IH.
Qed.

Lemma count_blanks_flush (l : string) : flush_left l = true -> count_blanks l = 0.
Proof.
  destruct l as [|c l]; [done|]. cbn [flush_left count_blanks].
  by destruct (is_blank c).
Qed.

(** Step 2 finds no indentation below [n], and finds [n] at a line that
    starts at the first column. *)
Lemma break_indents_blocks n (ls : list string) :
  0 < n -> Forall (fun l => no_char LF l = true) ls ->
  Forall (fun x => n <= x) (break_indents (blocks (indent n) ls))
  /\ (Exists (fun l => flush_left l = true) ls ->
      n ∈ break_indents (blocks (indent n) ls)).
Proof.
  intros Hn. induction 1 as [|l ls Hl _ [IHall IHin]].
  - split; [constructor|]. intros H. by apply Exists_nil in H.
  - cbn [blocks fold_right]. fold (blocks (indent n) ls).
    cbn [break_indents]. rewrite Ascii.eqb_refl.
    rewrite break_indents_plain
      by (rewrite no_char_indent; [done|by vm_compute]).
    destruct l as [|c l].
    + rewrite indent_empty, append_empty_l.
      rewrite count_blanks_blocks. split; [done|].
      intros H. apply Exists_cons in H as [H|H]; [done|auto].
    + rewrite indent_cons, append_assoc_string.
      rewrite count_blanks_spaces.
      rewrite count_blanks_app by apply count_blanks_blocks.
      destruct (n + count_blanks (String c l)) as [|k] eqn:Hk; [lia|].
      split; [constructor; [lia|done]|].
      intros H. apply Exists_cons in H as [H|H].
      * apply count_blanks_flush in H. rewrite H in Hk.
        replace (S k) with n by lia. apply list_elem_of_here.
      * apply list_elem_of_further. auto.
Qed.

Lemma min_list_le m ms x : x ∈ m :: ms -> min_list m ms <= x.
Proof.
  unfold min_list. revert x.
  induction ms as [|y ms IH]; cbn [fold_right]; intros x Hx.
  - apply list_elem_of_singleton in Hx. lia.
  - pose proof (IH m (list_elem_of_here _ _)) as Hm.
    rewrite !elem_of_cons in Hx. destruct Hx as [Hx|[Hx|Hx]]; [lia|lia|].
    assert (fold_right Nat.min m ms <= x)
      by (apply IH, list_elem_of_further, Hx). lia.
Qed.

Lemma min_list_ge n m ms :
  Forall (fun x => n <= x) (m :: ms) -> n <= min_list m ms.
Proof.
  unfold min_list. intros H. apply Forall_cons in H as [Hm Hms].
  induction Hms as [|y ms Hy _ IH]; cbn [fold_right]; lia.
Qed.

(** X6: [dedent] undoes indentation.  Take lines without line break, one of
    them starting at the first column; write each non-empty line behind [n]
    blanks ([n] at least 1), put a line break before the first line and a
    line break with [m] blanks after the last one.  Then [dedent] returns the
    lines as they were, joined by line breaks; empty lines stay. *)
Theorem dedent_indented (n m : nat) (ls : list string) :
  0 < n ->
  Forall (fun l => plain_line l = true) ls ->
  Exists (fun l => flush_left l = true) ls ->
  dedent [String LF (join_lines (map (indent n) ls)) +:+ String LF (spaces m)] []
  = inr (join_lines ls).
Proof.
  intros Hn Hplain Hflush.
  assert (ls <> []) as Hne by (intros ->; by apply Exists_nil in Hflush).
  assert (Forall (fun l => no_char LF l = true) ls) as HLF.
  { eapply Forall_impl; [exact Hplain|]. intros l Hl.
    by apply andb_prop in Hl as [? ?]. }
  assert (Forall (fun l => no_char CR (indent n l) = true) ls) as HCR.
  { eapply Forall_impl; [exact Hplain|]. intros l Hl.
    rewrite no_char_indent by (by vm_compute).
    by apply andb_prop in Hl as [? ?]. }
  rewrite join_blocks by done.
  unfold dedent. cbn [map_last map concat].
  rewrite remove_trailing_break_final
    by (apply blocks_no_char; [by vm_compute|done]).
  rewrite app_nil_r.
  destruct (break_indents_blocks n ls Hn HLF) as [Hall Hin].
  specialize (Hin Hflush).
  destruct (break_indents (blocks (indent n) ls)) as [|x xs] eqn:Hbi.
  { by apply elem_of_nil in Hin. }
  assert (min_list x xs = n) as ->.
  { pose proof (min_list_le x xs n Hin). pose proof (min_list_ge n x xs Hall). lia. }
  cbn [map map_head]. rewrite remove_indent_blocks by done.
  rewrite <- (join_blocks id) by done. rewrite map_id.
  reflexivity.
Qed.

Lemma dedent_indented_witness :
  0 < 2
  /\ Forall (fun l => plain_line l = true) ["a"; ""; "  b"]
  /\ Exists (fun l => flush_left l = true) ["a"; ""; "  b"]
  /\ dedent [String LF (join_lines (map (indent 2) ["a"; ""; "  b"]))
             +:+ String LF (spaces 1)] []
     = inr (join_lines ["a"; ""; "  b"]).
Proof.
  assert (0 < 2) as Hn by lia.
  assert (Forall (fun l => plain_line l = true) ["a"; ""; "  b"]) as Hplain
    by (repeat constructor).
  assert (Exists (fun l => flush_left l = true) ["a"; ""; "  b"]) as Hflush
    by (apply Exists_cons_hd; reflexivity).
  split; [exact Hn|]. split; [exact Hplain|]. split; [exact Hflush|].
  exact (dedent_indented 2 1 _ Hn Hplain Hflush).
Defined.





(** ** JSX text *)





Lemma split_lines_plain (s : string) :
  Forall (fun l => plain_line l = true) (split_lines s).
Proof.
  induction s as [|c s IH]; [by repeat constructor|].
  cbn [split_lines].
  destruct (Ascii.eqb c LF) eqn:HLF; [by constructor|].
  destruct (Ascii.eqb c CR) eqn:HCR.
  - destruct s as [|c2 s2]; [by constructor|].
    destruct (Ascii.eqb c2 LF) eqn:H2; [|by constructor].
    constructor; [done|]. cbn [split_lines] in IH. rewrite H2 in IH.
    by apply Forall_cons in IH as [_ IH].
  - destruct (split_lines s) as [|l ls]; [|apply Forall_cons in IH as [Hl Hls]].
    + constructor; [|done]. unfold plain_line. cbn [no_char]. by rewrite HLF, HCR.
    + constructor; [|done]. unfold plain_line in *. cbn [no_char].
      rewrite HLF, HCR. exact Hl.
Qed.

Lemma no_char_tabs c (s : string) :
  c <> SPACE -> no_char c s = true -> no_char c (tabs_to_spaces s) = true.
Proof.
  intros Hc. induction s as [|x s IH]; [done|]. cbn [no_char tabs_to_spaces].
  intros H. apply andb_prop in H as [Hx Hs]. rewrite (IH Hs).
  destruct (Ascii.eqb x TAB); [|by rewrite Hx].
  destruct (Ascii.eqb_spec SPACE c); [congruence|done].
Qed.

Lemma no_tab_tabs (s : string) : no_char TAB (tabs_to_spaces s) = true.
Proof.
  induction s as [|x s IH]; [done|]. cbn [no_char tabs_to_spaces].
  rewrite IH. by destruct (Ascii.eqb x TAB) eqn:Hx; [|rewrite Hx].
Qed.

Lemma no_char_trim_left c (s : string) :
  no_char c s = true -> no_char c (trim_left s) = true.
Proof.
  induction s as [|x s IH]; [done|]. cbn [trim_left]. intros H.
  destruct (Ascii.eqb x SPACE); [|done].
  cbn [no_char] in H. apply andb_prop in H as [_ H]. auto.
Qed.

Lemma no_char_trim_right c (s : string) :
  no_char c s = true -> no_char c (trim_right s) = true.
Proof.
  induction s as [|x s IH]; [done|]. cbn [trim_right no_char]. intros H.
  apply andb_prop in H as [Hx Hs].
  destruct (Ascii.eqb x SPACE && is_empty (trim_right s)); [done|].
  cbn [no_char]. by rewrite Hx, IH.
Qed.

Lemma clean_lines_no_char c i last total (lines : list string) :
  c <> SPACE ->
  Forall (fun l => no_char c (tabs_to_spaces l) = true) lines ->
  no_char c (clean_lines i last total lines) = true.
Proof.
  intros Hc Hlines. revert i.
  induction Hlines as [|l lines Hl _ IH]; intros i; [done|].
  cbn [clean_lines]. cbv zeta. rewrite no_char_app, IH, andb_true_r.
  set (t1 := if Nat.eqb i 0 then _ else _).
  assert (no_char c t1 = true) as Ht1.
  { subst t1. destruct (Nat.eqb i 0); [done|by apply no_char_trim_left]. }
  set (t2 := if Nat.eqb i (total - 1) then _ else _).
  assert (no_char c t2 = true) as Ht2.
  { subst t2. destruct (Nat.eqb i (total - 1)); [done|by apply no_char_trim_right]. }
  destruct (is_empty t2); [done|]. destruct (Nat.eqb i last); [done|].
  rewrite no_char_app, Ht2. cbn [no_char].
  destruct (Ascii.eqb_spec " " c) as [<-|]; [by destruct Hc|done].
Qed.

(** X10: the text a JSX element passes on never holds a line break or a
    tab, whatever is written between the tags. *)
Theorem jsx_text_one_line (s : string) :
  no_char LF (jsx_text s) = true
  /\ no_char CR (jsx_text s) = true
  /\ no_char TAB (jsx_text s) = true.
Proof.
  unfold jsx_text. pose proof (split_lines_plain s) as Hplain.
  repeat split; apply clean_lines_no_char; try (by vm_compute).
  - eapply Forall_impl; [exact Hplain|]. intros l Hl.
    apply andb_prop in Hl as [Hl _]. by apply no_char_tabs; [vm_compute|].
  - eapply Forall_impl; [exact Hplain|]. intros l Hl.
    apply andb_prop in Hl as [_ Hl]. by apply no_char_tabs; [vm_compute|].
  - apply Forall_forall. intros l _. apply no_tab_tabs.
Qed.

(** ** The module as a whole *)



(** X2: the [H2] headings of the page are the names of the links of the
    metadata, in the same order, and the url of each link is [#] followed by
    the heading in lower case. *)
Theorem headings_match_links (args : list value) (h h0 : heap) :
  exists scope h1 v h',
    load h0 = inr (scope, h1)
    /\ Page args h = inr (v, h')
    /\ map (fun l => string_of (get "name" l))
           (items_of (get "links" (snapshot h1 (meta scope))))
       = texts_of (Comp Components.H2) (snapshot h' v)
    /\ map (fun l => string_of (get "url" l))
           (items_of (get "links" (snapshot h1 (meta scope))))
       = map (fmap (fun text => "#" +:+ lowercase text))
             (texts_of (Comp Components.H2) (snapshot h' v))
    /\ Forall is_Some (texts_of (Comp Components.H2) (snapshot h' v))
    /\ length (texts_of (Comp Components.H2) (snapshot h' v)) = 2.
Proof.
  destruct (Page_run args h) as (v & new & Hrun & Hsnap & _).
  destruct (load_run h0) as (scope & new0 & Hload & Hmeta).
  exists scope, (new0 ++ h0), v, (new ++ h).
  rewrite Hsnap, Hmeta. do 2 (split; [done|]).
  split; [evaluate|]. split; [evaluate|]. split; [|evaluate].
  vm_compute. repeat constructor; by eexists.
Qed.





(** X5: the snippets agree on the status codes.  The Laravel handler sends
    the codes 500, 503, 404 and 403 to the error page, and each of the four
    error page components (Vue 2, Vue 3, React, Svelte) has two entries for
    each of these codes, a title and a description; the eight table lines
    are the same text in the four components. *)
Theorem error_snippets_consistent (args : list value) (h : heap) :
  exists v h' laravel table,
    Page args h = inr (v, h')
    /\ example_field "Laravel" "code" (snapshot h' v) = Some laravel
    /\ occurrences "in_array($response->getStatusCode(), [500, 503, 404, 403])"
                   laravel = 1
    /\ Forall (fun name =>
                 exists code,
                   example_field name "code" (snapshot h' v) = Some code
                   /\ table_lines code = table
                   /\ Forall (fun status => occurrences (status +:+ ": '") code = 2)
                             ["500"; "503"; "404"; "403"])
              ["Vue 2"; "Vue 3"; "React"; "Svelte"]
    /\ length table = 8.
Proof.
  destruct (Page_run args h) as (v & new & Hrun & Hsnap & _).
  exists v, (new ++ h). rewrite Hsnap. do 2 eexists.
  split; [done|]. split; [evaluate|]. split; [evaluate|]. split.
  - repeat (apply Forall_cons; split;
            [eexists; split; [evaluate|split; [evaluate|repeat constructor; evaluate]]|]).
    apply Forall_nil_2.
  - evaluate.
Qed.

(** ** React elements *)

Lemma assoc_none {T : Type} k (l : list (string * T)) :
  k ∉ map fst l -> assoc k l = None.
Proof.
  induction l as [|[k' x] l IH]; [done|]. cbn [map fst assoc]. intros Hk.
  apply not_elem_of_cons in Hk as [Hne Hk].
  destruct (String.eqb_spec k k'); [done|auto].
Qed.







